(** * Cosmetic Detective API: the ticket lifecycle of [src/api/main.py]

    A shallow embedding of the FastAPI handlers that mutate or read the
    ticket, result and event tables.  The SQLite database is a record of
    tables: [tickets] and [results] are maps keyed by the ticket id (the
    results table has a unique [ticket_id] column), [events] is the
    append-only [ticket_events] table with its autoincrement counter.
    Every call to [datetime.utcnow()] is an explicit argument of the
    handler, in the order the source performs them, and the object store
    is the list of keys uploaded so far together with an oracle saying
    whether an upload succeeds. *)

From stdpp Require Import base gmap strings list sorting.
From Stdlib Require Import ZArith.

Open Scope Z_scope.

(** ** Data model *)

(** [StatusType = Literal["submitted", "in_review", "resolved",
    "need_more_info", "rejected"]] *)
Inductive Status := submitted | in_review | resolved | need_more_info | rejected.

#[global] Instance Status_eq_dec : EqDecision Status.
Proof. solve_decision. Defined.

(** [VerdictType = Literal["authentic", "inauthentic", "undetermined"]] *)
Inductive Verdict := authentic | inauthentic | undetermined.

(** The [kind] column of [ticket_events]. *)
Inductive EventKind := created | status_changed | claimed | unclaimed | result_added.

#[global] Instance EventKind_eq_dec : EqDecision EventKind.
Proof. solve_decision. Defined.

(** A row of the [tickets] table; [image_urls_json] is kept decoded. *)
Record Ticket := mkTicket {
  id : string;
  user_id : option string;
  brand : string;
  category : string;
  notes : string;
  status : Status;
  image_urls : list string;
  assigned_reviewer_id : option string;
  claimed_at : option Z;
  created_at : Z;
  updated_at : Z
}.

(** A row of the [results] table (the surrogate integer key is omitted:
    rows are found by their unique [ticket_id]). *)
Record Result := mkResult {
  r_ticket_id : string;
  verdict : Verdict;
  rationale : string;
  reviewer_id : option string;
  reviewed_at : Z
}.

(** A row of the [ticket_events] table. *)
Record TicketEvent := mkEvent {
  e_id : Z;
  e_ticket_id : string;
  kind : EventKind;
  actor_id : option string;
  from_status : option Status;
  to_status : option Status;
  e_at : Z;  (* the [at] column *)
  note : option string
}.

Record DB := mkDB {
  tickets : gmap string Ticket;
  results : gmap string Result;
  events : list TicketEvent;
  next_event_id : Z
}.

(** The database and the object store ([BUCKET_NAME = "tickets"]),
    the latter as the keys stored so far. *)
Record World := mkWorld {
  db : DB;
  blobs : list string
}.

Definition empty_db : DB := mkDB ∅ ∅ [] 1.
Definition empty_world : World := mkWorld empty_db [].

(** The errors the handlers raise, with the HTTP status they carry. *)
Inductive Err :=
| NotFound            (* 404 "Ticket not found" *)
| ValidationError     (* 400 "Must upload 1-5 images", 422 from Query(ge, le) *)
| StorageError        (* 500 "Upload failed", or the commit failing *)
| Conflict            (* 409 "Ticket already claimed by another reviewer" *)
| InvalidState        (* 400 "Ticket is not claimed" *)
| Forbidden           (* 403 "Only the assigned reviewer can unclaim" *)
| IllegalTransition   (* 400 "Illegal transition" *)
| AlreadyExists.      (* 400 "Result already exists for this ticket" *)

#[global] Instance Err_eq_dec : EqDecision Err.
Proof. solve_decision. Defined.

(** ** Helpers *)

(** Python truthiness of an [Optional[str]]: [None] and [""] are false. *)
Definition truthy (o : option string) : bool :=
  match o with
  | None => false
  | Some s => negb (String.eqb s "")
  end.

(** [ALLOWED_TRANSITIONS], as the membership test
    [to_status in ALLOWED_TRANSITIONS.get(from_status, set())]. *)
Definition ALLOWED_TRANSITIONS (from : Status) : list Status :=
  match from with
  | submitted => [in_review; rejected; need_more_info]
  | in_review => [resolved; rejected; need_more_info]
  | need_more_info => [in_review; rejected]
  | rejected => []
  | resolved => []
  end.

Definition allowed (from to : Status) : bool :=
  bool_decide (to ∈ ALLOWED_TRANSITIONS from).

(** [record_event]: insert one row with the next autoincrement id. *)
Definition record_event (d : DB) (ticket_id : string) (k : EventKind)
    (actor : option string) (fs ts : option Status) (now : Z) : DB :=
  mkDB (tickets d) (results d)
       (events d ++ [mkEvent (next_event_id d) ticket_id k actor fs ts now None])
       (next_event_id d + 1).

(** [db.add(t); db.commit()] for the row stored under [ticket_id]. *)
Definition put_ticket (d : DB) (ticket_id : string) (t : Ticket) : DB :=
  mkDB (<[ticket_id := t]> (tickets d)) (results d) (events d) (next_event_id d).

Definition set_status (t : Ticket) (s : Status) (upd : Z) : Ticket :=
  mkTicket (id t) (user_id t) (brand t) (category t) (notes t) s (image_urls t)
           (assigned_reviewer_id t) (claimed_at t) (created_at t) upd.

Definition set_claim (t : Ticket) (s : Status) (rev : option string)
    (cl : option Z) (upd : Z) : Ticket :=
  mkTicket (id t) (user_id t) (brand t) (category t) (notes t) s (image_urls t)
           rev cl (created_at t) upd.

Definition MINIO_ENDPOINT : string := "http://127.0.0.1:9000".
Definition BUCKET_NAME : string := "tickets".

(** ** Handlers *)

(** The upload loop of [create_ticket]: [filename = img.filename or
    "image.jpg"], [key = f"{ticket_id}/{filename}"]; [put_ok key] says
    whether [s3_client.upload_fileobj] succeeds.  A failed upload raises
    at once; the keys stored before it stay in the bucket. *)
Fixpoint upload_images (put_ok : string -> bool) (ticket_id : string)
    (imgs : list (option string)) (bl : list string)
    : (Err + list string) * list string :=
  match imgs with
  | [] => (inr [], bl)
  | img :: rest =>
      let filename := if truthy img then default "" img else "image.jpg" in
      let key := String.append ticket_id (String.append "/" filename) in
      if put_ok key then
        match upload_images put_ok ticket_id rest (bl ++ [key]) with
        | (inl e, bl') => (inl e, bl')
        | (inr urls, bl') =>
            (inr (String.append MINIO_ENDPOINT
                   (String.append "/" (String.append BUCKET_NAME
                     (String.append "/" key))) :: urls), bl')
        end
      else (inl StorageError, bl)
  end.

(** [POST /tickets].  [ticket_id] is the [uuid4] drawn by the handler,
    [now] the [utcnow()] of the row and [t_ev] that of [record_event].
    Inserting a row whose primary key exists makes the commit raise. *)
Definition create_ticket (brand category notes : string)
    (images : list (option string)) (user_id : option string)
    (ticket_id : string) (put_ok : string -> bool) (now t_ev : Z)
    (w : World) : (Err + Ticket) * World :=
  if negb (Nat.leb 1 (length images) && Nat.leb (length images) 5)
  then (inl ValidationError, w)
  else
    match upload_images put_ok ticket_id images (blobs w) with
    | (inl e, bl) => (inl e, mkWorld (db w) bl)
    | (inr image_urls, bl) =>
        match tickets (db w) !! ticket_id with
        | Some _ => (inl StorageError, mkWorld (db w) bl)
        | None =>
            let t := mkTicket ticket_id user_id brand category notes submitted
                       image_urls None None now now in
            let d1 := put_ticket (db w) ticket_id t in
            (inr t, mkWorld (record_event d1 ticket_id created user_id
                               None (Some submitted) t_ev) bl)
        end
    end.

(** [POST /tickets/{id}/claim]. *)
Definition claim_ticket (ticket_id reviewer : string) (t_claim t_upd t_ev : Z)
    (d : DB) : (Err + Ticket) * DB :=
  match tickets d !! ticket_id with
  | None => (inl NotFound, d)
  | Some t =>
      if truthy (assigned_reviewer_id t)
         && negb (bool_decide (assigned_reviewer_id t = Some reviewer))
      then (inl Conflict, d)
      else
        let prev_status := status t in
        let st := match status t with
                  | submitted | need_more_info => in_review
                  | s => s
                  end in
        let t' := set_claim t st (Some reviewer) (Some t_claim) t_upd in
        (inr t', record_event (put_ticket d ticket_id t') ticket_id claimed
                   (Some reviewer) (Some prev_status) (Some st) t_ev)
  end.

(** [POST /tickets/{id}/unclaim]. *)
Definition unclaim_ticket (ticket_id reviewer : string) (t_upd t_ev : Z)
    (d : DB) : (Err + Ticket) * DB :=
  match tickets d !! ticket_id with
  | None => (inl NotFound, d)
  | Some t =>
      if negb (truthy (assigned_reviewer_id t)) then (inl InvalidState, d)
      else if negb (bool_decide (assigned_reviewer_id t = Some reviewer))
      then (inl Forbidden, d)
      else
        let t' := set_claim t (status t) None None t_upd in
        (inr t', record_event (put_ticket d ticket_id t') ticket_id unclaimed
                   (Some reviewer) None None t_ev)
  end.

(** [PATCH /tickets/{id}/status]. *)
Definition update_status (ticket_id : string) (to : Status) (t_upd t_ev : Z)
    (d : DB) : (Err + Ticket) * DB :=
  match tickets d !! ticket_id with
  | None => (inl NotFound, d)
  | Some t =>
      let from := status t in
      if negb (allowed from to) then (inl IllegalTransition, d)
      else
        let t' := set_status t to t_upd in
        (inr t', record_event (put_ticket d ticket_id t') ticket_id status_changed
                   None (Some from) (Some to) t_ev)
  end.

(** [POST /tickets/{id}/result]. *)
Definition create_result (ticket_id : string) (v : Verdict)
    (rat : option string) (rid : option string) (t_rev t_upd t_ev : Z)
    (d : DB) : (Err + Result) * DB :=
  match tickets d !! ticket_id with
  | None => (inl NotFound, d)
  | Some t =>
      match results d !! ticket_id with
      | Some _ => (inl AlreadyExists, d)
      | None =>
          let r := mkResult ticket_id v (default "" rat) rid t_rev in
          let prev_status := status t in
          let t' := set_status t resolved t_upd in
          let d1 := mkDB (<[ticket_id := t']> (tickets d))
                         (<[ticket_id := r]> (results d))
                         (events d) (next_event_id d) in
          (inr r, record_event d1 ticket_id result_added rid
                    (Some prev_status) (Some resolved) t_ev)
      end
  end.

(** ** Queries *)

(** [ORDER BY key ASC]: the rows come back sorted by the key; rows with
    equal keys come in an order the query leaves to the engine. *)
Definition order_by_asc {A} (key : A -> Z) (rows out : list A) : Prop :=
  out ≡ₚ rows /\ Sorted (fun a b => key a <= key b) out.

(** [ORDER BY key DESC]. *)
Definition order_by_desc {A} (key : A -> Z) (rows out : list A) : Prop :=
  out ≡ₚ rows /\ Sorted (fun a b => key b <= key a) out.

(** One engine that implements [ORDER BY]: a stable merge sort of the
    rows in table order. *)
Definition sort_asc {A} (key : A -> Z) (rows : list A) : list A :=
  @merge_sort _ (fun a b => key a <= key b) (fun a b => decide (key a <= key b)) rows.

Definition sort_desc {A} (key : A -> Z) (rows : list A) : list A :=
  @merge_sort _ (fun a b => key b <= key a) (fun a b => decide (key b <= key a)) rows.

(** [GET /tickets/{id}/events]: the rows of [ticket_events] with this
    [ticket_id], [ORDER BY at ASC]. *)
Definition events_of (d : DB) (ticket_id : string) : list TicketEvent :=
  filter (fun e => e_ticket_id e = ticket_id) (events d).

Definition list_events_result (d : DB) (ticket_id : string)
    (r : Err + list TicketEvent) : Prop :=
  match tickets d !! ticket_id with
  | None => r = inl NotFound
  | Some _ => exists out, r = inr out /\ order_by_asc e_at (events_of d ticket_id) out
  end.

Definition list_events (d : DB) (ticket_id : string) : Err + list TicketEvent :=
  match tickets d !! ticket_id with
  | None => inl NotFound
  | Some _ => inr (sort_asc e_at (events_of d ticket_id))
  end.

(** The query parameters of [GET /tickets]; [None] is an absent one. *)
Record ListQuery := mkQuery {
  q_user_id : option string;
  q_status : option Status;
  q_unassigned : option bool;
  q_reviewer_id : option string;
  q_limit : option Z
}.

(** The [.filter] calls of [list_tickets], each guarded as in the source
    ([if user_id:], [if status:], [if unassigned is True:],
    [if reviewer_id:]); SQL's [=] against NULL is false. *)
Definition ticket_filter (q : ListQuery) (t : Ticket) : bool :=
  (if truthy (q_user_id q) then bool_decide (user_id t = q_user_id q) else true)
  && (match q_status q with
      | Some s => bool_decide (status t = s)
      | None => true
      end)
  && (if bool_decide (q_unassigned q = Some true)
      then bool_decide (assigned_reviewer_id t = None) else true)
  && (if truthy (q_reviewer_id q)
      then bool_decide (assigned_reviewer_id t = q_reviewer_id q) else true).

(** [limit: int = Query(50, ge=1, le=200)]: FastAPI rejects an
    out-of-range value with a 422 before the handler runs. *)
Definition query_limit (q : ListQuery) : option Z :=
  let lim := default 50 (q_limit q) in
  if (1 <=? lim) && (lim <=? 200) then Some lim else None.

Definition ticket_rows (d : DB) : list Ticket := map snd (map_to_list (tickets d)).

Definition list_tickets_result (d : DB) (q : ListQuery) (r : Err + list Ticket) : Prop :=
  match query_limit q with
  | None => r = inl ValidationError
  | Some lim =>
      exists sorted, order_by_desc created_at (filter (fun t => ticket_filter q t = true)
                                                      (ticket_rows d)) sorted
                     /\ r = inr (take (Z.to_nat lim) sorted)
  end.

Definition list_tickets (d : DB) (q : ListQuery) : Err + list Ticket :=
  match query_limit q with
  | None => inl ValidationError
  | Some lim =>
      inr (take (Z.to_nat lim)
             (sort_desc created_at (filter (fun t => ticket_filter q t = true)
                                           (ticket_rows d))))
  end.

(** ** Operations and reachable states *)

(** One mutating request, with the environment's choices: the uuid, the
    outcome of each upload and every [utcnow()] reading. *)
Inductive Op :=
| Submit (brand category notes : string) (images : list (option string))
    (user_id : option string) (ticket_id : string) (put_ok : string -> bool)
    (now t_ev : Z)
| Claim (ticket_id reviewer : string) (t_claim t_upd t_ev : Z)
| Unclaim (ticket_id reviewer : string) (t_upd t_ev : Z)
| UpdateStatus (ticket_id : string) (to : Status) (t_upd t_ev : Z)
| RecordResult (ticket_id : string) (v : Verdict) (rat rid : option string)
    (t_rev t_upd t_ev : Z).

Definition on_db {A} (f : DB -> (Err + A) * DB) (w : World) : World :=
  mkWorld (snd (f (db w))) (blobs w).

Definition exec_op (o : Op) (w : World) : World :=
  match o with
  | Submit b c n imgs u tid ok now t_ev =>
      snd (create_ticket b c n imgs u tid ok now t_ev w)
  | Claim tid r t1 t2 t3 => on_db (claim_ticket tid r t1 t2 t3) w
  | Unclaim tid r t1 t2 => on_db (unclaim_ticket tid r t1 t2) w
  | UpdateStatus tid s t1 t2 => on_db (update_status tid s t1 t2) w
  | RecordResult tid v rat rid t1 t2 t3 => on_db (create_result tid v rat rid t1 t2 t3) w
  end.

Fixpoint exec_ops (os : list Op) (w : World) : World :=
  match os with
  | [] => w
  | o :: os' => exec_ops os' (exec_op o w)
  end.

(** States reachable from the empty database by any sequence of requests
    (reads change nothing). *)
Inductive reachable : World -> Prop :=
| reach_init : reachable empty_world
| reach_step w o : reachable w -> reachable (exec_op o w).

(** Sample data. *)
Definition all_ok (_ : string) : bool := true.
Definition submit_t (w : World) : World :=
  exec_op (Submit "Dior" "lipstick" "" [Some "1.jpeg"] (Some "kev") "t" all_ok 10 10) w.

Example submit_example :
  tickets (db (submit_t empty_world)) !! "t" =
    Some (mkTicket "t" (Some "kev") "Dior" "lipstick" "" submitted
            ["http://127.0.0.1:9000/tickets/t/1.jpeg"] None None 10 10).
Proof. reflexivity. Qed.

Example claim_example :
  fst (claim_ticket "t" "rev_001" 11 11 11 (db (submit_t empty_world))) =
    inr (mkTicket "t" (Some "kev") "Dior" "lipstick" "" in_review
            ["http://127.0.0.1:9000/tickets/t/1.jpeg"] (Some "rev_001") (Some 11) 10 11).
Proof. reflexivity. Qed.

Example list_events_example :
  list_events (db (submit_t empty_world)) "t" =
    inr [mkEvent 1 "t" created (Some "kev") None (Some submitted) 10 None].
Proof. reflexivity. Qed.

(** ** Frame lemmas *)

Ltac unfold_handlers :=
  unfold exec_op, on_db, create_ticket, claim_ticket, unclaim_ticket,
    update_status, create_result, record_event, put_ticket in *.

Lemma upload_images_no_validation put_ok tid imgs bl e bl' :
  upload_images put_ok tid imgs bl = (inl e, bl') -> e = StorageError.
Proof.
  revert bl. induction imgs as [|img rest IH]; intros bl H; simpl in H.
  - discriminate.
  - destruct (put_ok _).
    + destruct (upload_images put_ok tid rest _) as [[e0|urls] bl0] eqn:E;
        inversion H; subst. eapply IH; eauto.
    + inversion H; reflexivity.
Qed.

(** No request removes a ticket row. *)
Lemma exec_op_tickets_persist o w tid :
  is_Some (tickets (db w) !! tid) -> is_Some (tickets (db (exec_op o w)) !! tid).
Proof.
  intros Hs. destruct o; unfold_handlers; simpl.
  - destruct (negb _); [done|].
    destruct (upload_images _ _ _ _) as [[e|urls] bl]; [done|].
    destruct (tickets (db w) !! ticket_id) eqn:E; [done|]. simpl.
    destruct (decide (ticket_id = tid)); subst.
    + rewrite lookup_insert_eq; eauto.
    + rewrite lookup_insert_ne; auto.
  - destruct (tickets (db w) !! ticket_id) eqn:E; [|done].
    destruct (_ && _); [done|]. simpl.
    destruct (decide (ticket_id = tid)); subst.
    + rewrite lookup_insert_eq; eauto.
    + rewrite lookup_insert_ne; auto.
  - destruct (tickets (db w) !! ticket_id) eqn:E; [|done].
    destruct (negb _); [done|]. destruct (negb _); [done|]. simpl.
    destruct (decide (ticket_id = tid)); subst.
    + rewrite lookup_insert_eq; eauto.
    + rewrite lookup_insert_ne; auto.
  - destruct (tickets (db w) !! ticket_id) eqn:E; [|done].
    destruct (negb _); [done|]. simpl.
    destruct (decide (ticket_id = tid)); subst.
    + rewrite lookup_insert_eq; eauto.
    + rewrite lookup_insert_ne; auto.
  - destruct (tickets (db w) !! ticket_id) eqn:E; [|done].
    destruct (results (db w) !! ticket_id); [done|]. simpl.
    destruct (decide (ticket_id = tid)); subst.
    + rewrite lookup_insert_eq; eauto.
    + rewrite lookup_insert_ne; auto.
Qed.

(** A stored result is never replaced nor removed. *)
Lemma exec_op_results_persist o w tid r :
  results (db w) !! tid = Some r -> results (db (exec_op o w)) !! tid = Some r.
Proof.
  intros Hr. destruct o; unfold_handlers; simpl.
  - destruct (negb _); [done|].
    destruct (upload_images _ _ _ _) as [[e|urls] bl]; [done|].
    destruct (tickets (db w) !! ticket_id); done.
  - destruct (tickets (db w) !! ticket_id); [|done].
    destruct (_ && _); done.
  - destruct (tickets (db w) !! ticket_id); [|done].
    destruct (negb _); [done|]. destruct (negb _); done.
  - destruct (tickets (db w) !! ticket_id); [|done].
    destruct (negb _); done.
  - destruct (tickets (db w) !! ticket_id); [|done].
    destruct (results (db w) !! ticket_id) eqn:E; [done|]. simpl.
    destruct (decide (ticket_id = tid)); subst.
    + congruence.
    + rewrite lookup_insert_ne; auto.
Qed.

Lemma exec_ops_tickets_persist os w tid :
  is_Some (tickets (db w) !! tid) -> is_Some (tickets (db (exec_ops os w)) !! tid).
Proof.
  revert w. induction os as [|o os IH]; intros w H; simpl; auto.
  apply IH, exec_op_tickets_persist, H.
Qed.

Lemma exec_ops_results_persist os w tid r :
  results (db w) !! tid = Some r -> results (db (exec_ops os w)) !! tid = Some r.
Proof.
  revert w. induction os as [|o os IH]; intros w H; simpl; auto.
  apply IH, exec_op_results_persist, H.
Qed.

(** ** Claims *)

(** C2: on an existing ticket, UpdateStatus fails with IllegalTransition
    exactly when the target is not in [ALLOWED_TRANSITIONS] of the current
    status; a self-transition always fails; on success the row gets the
    new status and [updated_at], all else kept; on failure the database
    is unchanged. *)
Theorem update_status_transition_table (d : DB) (tid : string) (t : Ticket)
    (to : Status) (t_upd t_ev : Z) (Ht : tickets d !! tid = Some t) :
  (fst (update_status tid to t_upd t_ev d) = inl IllegalTransition
     <-> to ∉ ALLOWED_TRANSITIONS (status t)) /\
  fst (update_status tid (status t) t_upd t_ev d) = inl IllegalTransition /\
  (to ∈ ALLOWED_TRANSITIONS (status t) ->
     fst (update_status tid to t_upd t_ev d) = inr (set_status t to t_upd) /\
     tickets (snd (update_status tid to t_upd t_ev d)) !! tid
       = Some (set_status t to t_upd)) /\
  (to ∉ ALLOWED_TRANSITIONS (status t) ->
     snd (update_status tid to t_upd t_ev d) = d).
Proof.
  unfold update_status, allowed, record_event, put_ticket. rewrite Ht.
  split; [|split; [|split]].
  - case_bool_decide as Hin; simpl; split; intros H; try done.
  - destruct (status t); reflexivity.
  - intros Hin. rewrite bool_decide_true by done. simpl.
    split; [done|]. apply lookup_insert_eq.
  - intros Hin. rewrite bool_decide_false by done. reflexivity.
Qed.

Lemma update_status_transition_table_witness :
  tickets (db (submit_t empty_world)) !! "t"
    = Some (mkTicket "t" (Some "kev") "Dior" "lipstick" "" submitted
              ["http://127.0.0.1:9000/tickets/t/1.jpeg"] None None 10 10) /\
  fst (update_status "t" resolved 11 11 (db (submit_t empty_world)))
    = inl IllegalTransition.
Proof.
  split; [reflexivity|].
  destruct (update_status_transition_table (db (submit_t empty_world)) "t"
           (mkTicket "t" (Some "kev") "Dior" "lipstick" "" submitted
              ["http://127.0.0.1:9000/tickets/t/1.jpeg"] None None 10 10)
           resolved 11 11 eq_refl) as [Hiff _].
  apply Hiff. apply (bool_decide_unpack _). reflexivity.
Defined.

Lemma create_result_exists d tid v rat rid t1 t2 t3 :
  is_Some (tickets d !! tid) -> is_Some (results d !! tid) ->
  create_result tid v rat rid t1 t2 t3 d = (inl AlreadyExists, d).
Proof.
  intros [t Ht] [r Hr]. unfold create_result. rewrite Ht, Hr. reflexivity.
Qed.

(** C4: on an existing ticket, RecordResult fails with AlreadyExists
    exactly when a result is stored for it, whatever its status, and then
    leaves the database unchanged; once a first RecordResult succeeded,
    its result stays and every later RecordResult on the ticket, after
    any sequence of requests, fails with AlreadyExists. *)
Theorem create_result_at_most_once (w : World) (tid : string) (t : Ticket)
    (v : Verdict) (rat rid : option string) (t_rev t_upd t_ev : Z)
    (Ht : tickets (db w) !! tid = Some t) :
  (fst (create_result tid v rat rid t_rev t_upd t_ev (db w)) = inl AlreadyExists
     <-> is_Some (results (db w) !! tid)) /\
  (is_Some (results (db w) !! tid) ->
     snd (create_result tid v rat rid t_rev t_upd t_ev (db w)) = db w) /\
  (forall os v' rat' rid' t1 t2 t3,
     results (db w) !! tid = None ->
     let w' := exec_ops os (exec_op (RecordResult tid v rat rid t_rev t_upd t_ev) w) in
     results (db w') !! tid = Some (mkResult tid v (default "" rat) rid t_rev) /\
     create_result tid v' rat' rid' t1 t2 t3 (db w') = (inl AlreadyExists, db w')).
Proof.
  split; [|split].
  - unfold create_result. rewrite Ht.
    destruct (results (db w) !! tid); simpl; split; intros H; try done.
    all: destruct H; discriminate.
  - intros Hr. rewrite create_result_exists; [done| |done]. eauto.
  - intros os v' rat' rid' t1 t2 t3 Hnone w'.
    assert (Hr1 : results (db (exec_op (RecordResult tid v rat rid t_rev t_upd t_ev) w)) !! tid
                  = Some (mkResult tid v (default "" rat) rid t_rev)).
    { unfold_handlers. rewrite Ht, Hnone. simpl. apply lookup_insert_eq. }
    assert (Hr : results (db w') !! tid = Some (mkResult tid v (default "" rat) rid t_rev))
      by (apply exec_ops_results_persist, Hr1).
    split; [done|].
    apply create_result_exists; [|by eauto].
    apply exec_ops_tickets_persist, exec_op_tickets_persist. eauto.
Qed.

Lemma create_result_at_most_once_witness :
  results (db (submit_t empty_world)) !! "t" = None /\
  create_result "t" inauthentic None None 20 20 20
    (db (exec_ops [UpdateStatus "t" rejected 12 12]
          (exec_op (RecordResult "t" authentic None (Some "rev_001") 11 11 11)
             (submit_t empty_world))))
  = (inl AlreadyExists,
     db (exec_ops [UpdateStatus "t" rejected 12 12]
          (exec_op (RecordResult "t" authentic None (Some "rev_001") 11 11 11)
             (submit_t empty_world)))).
Proof.
  split; [reflexivity|].
  apply (create_result_at_most_once (submit_t empty_world) "t"
           (mkTicket "t" (Some "kev") "Dior" "lipstick" "" submitted
              ["http://127.0.0.1:9000/tickets/t/1.jpeg"] None None 10 10)
           authentic None (Some "rev_001") 11 11 11 eq_refl).
  reflexivity.
Defined.

(** C6: Submit fails with ValidationError exactly when the image count is
    outside [1,5], and then neither the database nor the object store is
    touched; on success the new row is stored with status submitted, no
    reviewer, no claim time and [created_at = updated_at], and the last
    event is [created] with [to_status = submitted] and the submitter as
    actor. *)
Theorem create_ticket_validation (brand category notes : string)
    (images : list (option string)) (user_id : option string)
    (ticket_id : string) (put_ok : string -> bool) (now t_ev : Z) (w : World) :
  let r := create_ticket brand category notes images user_id ticket_id put_ok now t_ev w in
  (fst r = inl ValidationError <-> ~ (1 <= length images <= 5)%nat) /\
  (~ (1 <= length images <= 5)%nat -> snd r = w) /\
  (forall t, fst r = inr t ->
     tickets (db w) !! ticket_id = None /\
     tickets (db (snd r)) !! ticket_id = Some t /\
     status t = submitted /\ assigned_reviewer_id t = None /\
     claimed_at t = None /\ created_at t = updated_at t /\
     exists n, last (events (db (snd r)))
               = Some (mkEvent n ticket_id created user_id None (Some submitted) t_ev None)).
Proof.
  intros r. unfold r, create_ticket.
  destruct (negb (Nat.leb 1 (length images) && Nat.leb (length images) 5)) eqn:Hv.
  - apply negb_true_iff, andb_false_iff in Hv.
    assert (Hout : ~ (1 <= length images <= 5)%nat).
    { destruct Hv as [Hv|Hv]; apply Nat.leb_gt in Hv; lia. }
    simpl. split; [tauto|]. split; [done|]. intros t H; discriminate.
  - apply negb_false_iff, andb_true_iff in Hv.
    destruct Hv as [H1 H2]. apply Nat.leb_le in H1, H2.
    destruct (upload_images put_ok ticket_id images (blobs w)) as [[e|urls] bl] eqn:Hu.
    + apply upload_images_no_validation in Hu. subst. simpl.
      split; [split; [discriminate|lia]|]. split; [lia|]. intros t H; discriminate.
    + destruct (tickets (db w) !! ticket_id) as [t0|] eqn:Ht; simpl.
      * split; [split; [discriminate|lia]|]. split; [lia|]. intros t H; discriminate.
      * split; [split; [discriminate|lia]|]. split; [lia|].
        intros t H. inversion H; subst; clear H. simpl.
        split; [done|]. split; [apply lookup_insert_eq|].
        repeat split; try done. exists (next_event_id (db w)).
        apply last_snoc.
Qed.

(** C10: Claim checks no status: on an existing ticket in in_review,
    resolved or rejected that is unassigned or already held by the caller,
    Claim succeeds, stores the caller and the claim time, and keeps the
    status. *)
Theorem claim_no_status_precondition (d : DB) (tid : string) (t : Ticket)
    (reviewer : string) (t_claim t_upd t_ev : Z)
    (Ht : tickets d !! tid = Some t)
    (Hs : status t = in_review \/ status t = resolved \/ status t = rejected)
    (Ha : assigned_reviewer_id t = None \/ assigned_reviewer_id t = Some reviewer) :
  let t' := set_claim t (status t) (Some reviewer) (Some t_claim) t_upd in
  fst (claim_ticket tid reviewer t_claim t_upd t_ev d) = inr t' /\
  tickets (snd (claim_ticket tid reviewer t_claim t_upd t_ev d)) !! tid = Some t' /\
  status t' = status t /\ assigned_reviewer_id t' = Some reviewer /\
  claimed_at t' = Some t_claim.
Proof.
  intros t'. unfold claim_ticket, record_event, put_ticket. rewrite Ht.
  assert (Hc : (truthy (assigned_reviewer_id t)
                && negb (bool_decide (assigned_reviewer_id t = Some reviewer))) = false).
  { destruct Ha as [-> | ->]; [done|]. rewrite bool_decide_true by done.
    apply andb_false_r. }
  rewrite Hc.
  assert (Hst : match status t with
                | submitted | need_more_info => in_review
                | s => s
                end = status t)
    by (destruct Hs as [-> | [-> | ->]]; reflexivity).
  rewrite Hst. simpl. split; [done|]. split; [apply lookup_insert_eq|].
  repeat split.
Qed.

Lemma claim_no_status_precondition_witness :
  let d := db (exec_op (UpdateStatus "t" rejected 11 11) (submit_t empty_world)) in
  fst (claim_ticket "t" "rev_001" 12 12 12 d)
    = inr (mkTicket "t" (Some "kev") "Dior" "lipstick" "" rejected
             ["http://127.0.0.1:9000/tickets/t/1.jpeg"] (Some "rev_001") (Some 12) 10 12).
Proof.
  intros d.
  apply (claim_no_status_precondition d "t"
           (mkTicket "t" (Some "kev") "Dior" "lipstick" "" rejected
              ["http://127.0.0.1:9000/tickets/t/1.jpeg"] None None 10 11)
           "rev_001" 12 12 12).
  - reflexivity.
  - simpl. right. right. reflexivity.
  - simpl. left. reflexivity.
Defined.

(** The claim columns of a row. *)
Definition claim_fields (t : Ticket) : option string * option Z :=
  (assigned_reviewer_id t, claimed_at t).

Definition claim_consistent (t : Ticket) : Prop :=
  is_Some (assigned_reviewer_id t) <-> is_Some (claimed_at t).

(** How one request may change the claim columns of any row: kept as
    they were, or written by the request itself (Submit writes both
    NULL, Claim writes both, Unclaim clears both). *)
Definition claim_fields_step (o : Op) (d d' : DB) : Prop :=
  forall tid t', tickets d' !! tid = Some t' ->
    (exists t, tickets d !! tid = Some t /\ claim_fields t' = claim_fields t) \/
    match o with
    | Submit _ _ _ _ _ ticket_id _ _ _ =>
        tid = ticket_id /\ tickets d !! tid = None /\ claim_fields t' = (None, None)
    | Claim ticket_id reviewer t_claim _ _ =>
        tid = ticket_id /\ claim_fields t' = (Some reviewer, Some t_claim)
    | Unclaim ticket_id _ _ _ =>
        tid = ticket_id /\ claim_fields t' = (None, None)
    | _ => False
    end.

Ltac lookup_put tid0 tid :=
  destruct (decide (tid0 = tid)) as [<-|?];
  [rewrite lookup_insert_eq; intros [= <-]
  |rewrite lookup_insert_ne by done; intros; left; eauto].

Lemma exec_op_claim_fields o w : claim_fields_step o (db w) (db (exec_op o w)).
Proof.
  intros tid t'. destruct o; unfold_handlers; simpl.
  - destruct (negb _); [eauto|].
    destruct (upload_images _ _ _ _) as [[e|urls] bl]; [simpl; eauto|].
    destruct (tickets (db w) !! ticket_id) eqn:E; [simpl; eauto|]. simpl.
    lookup_put ticket_id tid. right. auto.
  - destruct (tickets (db w) !! ticket_id) as [t|] eqn:E; [|simpl; eauto].
    destruct (_ && _); [simpl; eauto|]. simpl.
    lookup_put ticket_id tid. right. auto.
  - destruct (tickets (db w) !! ticket_id) as [t|] eqn:E; [|simpl; eauto].
    destruct (negb _); [simpl; eauto|]. destruct (negb _); [simpl; eauto|]. simpl.
    lookup_put ticket_id tid. right. auto.
  - destruct (tickets (db w) !! ticket_id) as [t|] eqn:E; [|simpl; eauto].
    destruct (negb _); [simpl; eauto|]. simpl.
    lookup_put ticket_id tid. left. eauto.
  - destruct (tickets (db w) !! ticket_id) as [t|] eqn:E; [|simpl; eauto].
    destruct (results (db w) !! ticket_id); [simpl; eauto|]. simpl.
    lookup_put ticket_id tid. left. eauto.
Qed.

Lemma claim_consistent_fields t t0 :
  claim_fields t = claim_fields t0 -> claim_consistent t0 -> claim_consistent t.
Proof. unfold claim_fields, claim_consistent. intros [= -> ->]. done. Qed.

Lemma exec_op_claim_consistent o w :
  map_Forall (fun _ t => claim_consistent t) (tickets (db w)) ->
  map_Forall (fun _ t => claim_consistent t) (tickets (db (exec_op o w))).
Proof.
  intros Hinv tid t' Hl.
  destruct (exec_op_claim_fields o w tid t' Hl) as [(t & Ht & Hf)|Hnew].
  - eapply claim_consistent_fields; [exact Hf|]. exact (Hinv tid t Ht).
  - unfold claim_consistent. destruct o; try contradiction.
    + destruct Hnew as (_ & _ & Hf). injection Hf as Ha Hc.
      rewrite Ha, Hc. split; intros [? ?]; discriminate.
    + destruct Hnew as (_ & Hf). injection Hf as Ha Hc.
      rewrite Ha, Hc. split; intros; eauto.
    + destruct Hnew as (_ & Hf). injection Hf as Ha Hc.
      rewrite Ha, Hc. split; intros [? ?]; discriminate.
Qed.

(** C3: in every reachable state each row has a reviewer exactly when it
    has a claim time, and every request keeps this: its only writes to
    the claim columns are Submit's two NULLs, Claim's reviewer and time,
    and Unclaim's two NULLs (UpdateStatus and RecordResult keep them). *)
Theorem claim_fields_invariant (w : World) (Hr : reachable w) (o : Op) :
  map_Forall (fun _ t => claim_consistent t) (tickets (db w)) /\
  claim_fields_step o (db w) (db (exec_op o w)).
Proof.
  split; [|apply exec_op_claim_fields].
  induction Hr as [|w o' Hr IH].
  - intros tid t Hl. simpl in Hl. rewrite lookup_empty in Hl. discriminate.
  - apply exec_op_claim_consistent, IH.
Qed.

Lemma claim_fields_invariant_witness :
  let w := exec_op (Claim "t" "rev_001" 11 11 11) (submit_t empty_world) in
  reachable w /\
  map_Forall (fun _ t => claim_consistent t) (tickets (db w)).
Proof.
  intros w. assert (Hr : reachable w) by (repeat constructor).
  split; [exact Hr|].
  exact (proj1 (claim_fields_invariant w Hr (Unclaim "t" "rev_001" 12 12))).
Defined.

(** The status moves as the spec words them: an edge of the table, or
    Claim's move to in_review from submitted or need_more_info, or
    RecordResult's move to resolved from a non-terminal status. *)
Definition spec_status_move (o : Op) (tid : string) (s s' : Status) : Prop :=
  allowed s s' = true \/
  match o with
  | Claim ticket_id _ _ _ _ =>
      tid = ticket_id /\ (s = submitted \/ s = need_more_info) /\ s' = in_review
  | RecordResult ticket_id _ _ _ _ _ _ =>
      tid = ticket_id /\ s' = resolved /\ s <> resolved /\ s <> rejected
  | _ => False
  end.

(** The status moves the handlers make, request by request. *)
Definition status_move (o : Op) (d : DB) (tid : string) (s s' : Status) : Prop :=
  match o with
  | UpdateStatus ticket_id to _ _ =>
      tid = ticket_id /\ s' = to /\ allowed s s' = true
  | Claim ticket_id _ _ _ _ =>
      tid = ticket_id /\ (s = submitted \/ s = need_more_info) /\ s' = in_review
  | RecordResult ticket_id _ _ _ _ _ _ =>
      tid = ticket_id /\ s' = resolved /\ results d !! tid = None
  | _ => False
  end.

Definition sample_url : string := "http://127.0.0.1:9000/tickets/t/1.jpeg".

(** Submit, then UpdateStatus to rejected. *)
Definition rejected_world : World :=
  exec_op (UpdateStatus "t" rejected 11 11) (submit_t empty_world).

Definition record_after_reject : Op := RecordResult "t" authentic None None 20 20 20.

(** C1, refuted: a ticket rejected through UpdateStatus and without a
    result is moved from the terminal status rejected to resolved by
    RecordResult, which is no edge of the table and not from a
    non-terminal status. *)
Lemma status_moves_counterexample :
  ~ (forall w o tid t t',
       reachable w ->
       tickets (db w) !! tid = Some t ->
       tickets (db (exec_op o w)) !! tid = Some t' ->
       status t <> status t' ->
       spec_status_move o tid (status t) (status t')).
Proof.
  intros H.
  assert (Hr : reachable rejected_world) by (repeat constructor).
  specialize (H rejected_world record_after_reject "t"
                (mkTicket "t" (Some "kev") "Dior" "lipstick" "" rejected
                   [sample_url] None None 10 11)
                (mkTicket "t" (Some "kev") "Dior" "lipstick" "" resolved
                   [sample_url] None None 10 20)
                Hr eq_refl eq_refl ltac:(discriminate)).
  destruct H as [Hal | (_ & _ & _ & Hrej)].
  - discriminate Hal.
  - apply Hrej. reflexivity.
Qed.

(** C1, as the code has it: every change of the status of an existing
    row is UpdateStatus along an edge of the table, Claim's move to
    in_review from submitted or need_more_info, or RecordResult's move to
    resolved from whatever status, as long as no result is stored yet;
    Submit and Unclaim change no status. *)
Theorem status_moves (w : World) (o : Op) (tid : string) (t t' : Ticket)
    (Ht : tickets (db w) !! tid = Some t)
    (Ht' : tickets (db (exec_op o w)) !! tid = Some t')
    (Hne : status t <> status t') :
  status_move o (db w) tid (status t) (status t').
Proof.
  destruct o; unfold_handlers; simpl in Ht'.
  - destruct (negb _); [simpl in Ht'; congruence|].
    destruct (upload_images _ _ _ _) as [[e|urls] bl]; [simpl in Ht'; congruence|].
    destruct (tickets (db w) !! ticket_id) eqn:E; [simpl in Ht'; congruence|].
    simpl in Ht'. destruct (decide (ticket_id = tid)) as [<-|?]; [congruence|].
    rewrite lookup_insert_ne in Ht' by done. congruence.
  - destruct (tickets (db w) !! ticket_id) as [t0|] eqn:E; [|simpl in Ht'; congruence].
    destruct (_ && _); [simpl in Ht'; congruence|]. simpl in Ht'.
    destruct (decide (ticket_id = tid)) as [<-|?].
    + rewrite lookup_insert_eq in Ht'. rewrite E in Ht.
      injection Ht as <-. injection Ht' as <-. simpl in *.
      destruct (status t0); simpl in *; try congruence; auto.
    + rewrite lookup_insert_ne in Ht' by done. congruence.
  - destruct (tickets (db w) !! ticket_id) as [t0|] eqn:E; [|simpl in Ht'; congruence].
    destruct (negb _); [simpl in Ht'; congruence|].
    destruct (negb _); [simpl in Ht'; congruence|]. simpl in Ht'.
    destruct (decide (ticket_id = tid)) as [<-|?].
    + rewrite lookup_insert_eq in Ht'. rewrite E in Ht.
      injection Ht as <-. injection Ht' as <-. simpl in *. congruence.
    + rewrite lookup_insert_ne in Ht' by done. congruence.
  - destruct (tickets (db w) !! ticket_id) as [t0|] eqn:E; [|simpl in Ht'; congruence].
    destruct (negb (allowed _ _)) eqn:Hal; [simpl in Ht'; congruence|]. simpl in Ht'.
    destruct (decide (ticket_id = tid)) as [<-|?].
    + rewrite lookup_insert_eq in Ht'. rewrite E in Ht.
      injection Ht as <-. injection Ht' as <-. simpl in *.
      apply negb_false_iff in Hal. auto.
    + rewrite lookup_insert_ne in Ht' by done. congruence.
  - destruct (tickets (db w) !! ticket_id) as [t0|] eqn:E; [|simpl in Ht'; congruence].
    destruct (results (db w) !! ticket_id) eqn:Er; [simpl in Ht'; congruence|].
    simpl in Ht'.
    destruct (decide (ticket_id = tid)) as [<-|?].
    + rewrite lookup_insert_eq in Ht'. rewrite E in Ht.
      injection Ht as <-. injection Ht' as <-. simpl in *. auto.
    + rewrite lookup_insert_ne in Ht' by done. congruence.
Qed.

Lemma status_moves_witness :
  status_move record_after_reject (db rejected_world) "t" rejected resolved.
Proof.
  apply (status_moves rejected_world record_after_reject "t"
           (mkTicket "t" (Some "kev") "Dior" "lipstick" "" rejected
              [sample_url] None None 10 11)
           (mkTicket "t" (Some "kev") "Dior" "lipstick" "" resolved
              [sample_url] None None 10 20)).
  - reflexivity.
  - reflexivity.
  - discriminate.
Defined.

(** A ticket claimed by a reviewer whose id is the empty string (a valid
    [ClaimIn.reviewer_id: str]). *)
Definition claimed_by_empty : World :=
  exec_op (Claim "t" "" 11 11 11) (submit_t empty_world).

(** C5, at the failing input: the row holds the reviewer [""] with a
    claim time, yet a Claim by ["rev_001"] succeeds and takes the ticket
    over instead of failing with Conflict, since [""] is false for the
    source's [if t.assigned_reviewer_id and ...]. *)
Lemma claim_empty_reviewer_taken_over :
  tickets (db claimed_by_empty) !! "t"
    = Some (mkTicket "t" (Some "kev") "Dior" "lipstick" "" in_review
              [sample_url] (Some "") (Some 11) 10 11) /\
  fst (claim_ticket "t" "rev_001" 12 12 12 (db claimed_by_empty))
    = inr (mkTicket "t" (Some "kev") "Dior" "lipstick" "" in_review
              [sample_url] (Some "rev_001") (Some 12) 10 12).
Proof. split; reflexivity. Qed.

(** C7, at the failing input: the same claimed row cannot be unclaimed
    by anyone; another reviewer gets InvalidState instead of Forbidden,
    and the holder [""] gets InvalidState instead of success. *)
Lemma unclaim_empty_reviewer_invalid_state :
  fst (unclaim_ticket "t" "rev_001" 12 12 (db claimed_by_empty)) = inl InvalidState /\
  fst (unclaim_ticket "t" "" 12 12 (db claimed_by_empty)) = inl InvalidState.
Proof. split; reflexivity. Qed.

(** The order C8 asks of the event history: by timestamp, then by the
    sequence number. *)
Definition by_time_then_id (a b : TicketEvent) : Prop :=
  e_at a < e_at b \/ (e_at a = e_at b /\ e_id a <= e_id b).

(** Submit and Claim whose events share one timestamp. *)
Definition same_instant_world : World :=
  exec_op (Claim "t" "rev_001" 10 10 10) (submit_t empty_world).

Definition ev_created : TicketEvent :=
  mkEvent 1 "t" created (Some "kev") None (Some submitted) 10 None.
Definition ev_claimed : TicketEvent :=
  mkEvent 2 "t" claimed (Some "rev_001") (Some submitted) (Some in_review) 10 None.

Lemma same_instant_events :
  events_of (db same_instant_world) "t" = [ev_created; ev_claimed].
Proof. reflexivity. Qed.

(** C8, refuted: [ORDER BY at] alone lets the engine return the claimed
    event (id 2) before the created event (id 1) when both carry the same
    timestamp; no sequence-number tie-break is applied. *)
Lemma list_events_tiebreak_counterexample :
  ~ (forall d tid out, list_events_result d tid (inr out) -> Sorted by_time_then_id out).
Proof.
  intros H.
  assert (Hres : list_events_result (db same_instant_world) "t"
                   (inr [ev_claimed; ev_created])).
  { assert (Hl : is_Some (tickets (db same_instant_world) !! "t"))
      by (eexists; reflexivity).
    destruct Hl as [t Hl].
    unfold list_events_result. rewrite Hl. exists [ev_claimed; ev_created].
    split; [reflexivity|]. rewrite same_instant_events. split.
    - apply Permutation_swap.
    - repeat constructor. simpl. lia. }
  specialize (H _ _ _ Hres). inversion H as [|? ? _ Hhd]; subst.
  inversion Hhd as [|? ? Hr]; subst.
  unfold by_time_then_id in Hr. simpl in Hr. lia.
Qed.

Lemma Sorted_take {A} (R : relation A) (l : list A) n :
  Sorted R l -> Sorted R (take n l).
Proof.
  revert n. induction l as [|x l IH]; intros n Hs; destruct n; simpl; auto.
  inversion Hs as [|? ? Hs' Hhd]; subst. constructor; [auto|].
  destruct l as [|y l]; destruct n; simpl; constructor.
  inversion Hhd; auto.
Qed.

(** C8, as the code has it: ListByTicket fails, and only with NotFound,
    exactly when the ticket is absent; otherwise it returns exactly the
    ticket's events, ascending by timestamp, in an order among equal
    timestamps the query does not fix; the stable sort of the rows in
    table order is one such answer. *)
Theorem list_events_by_time (d : DB) (tid : string) :
  (forall e, list_events_result d tid (inl e) <-> tickets d !! tid = None /\ e = NotFound) /\
  (forall out, list_events_result d tid (inr out) ->
     is_Some (tickets d !! tid) /\
     out ≡ₚ events_of d tid /\
     (forall ev, ev ∈ out <-> ev ∈ events d /\ e_ticket_id ev = tid) /\
     Sorted (fun a b => e_at a <= e_at b) out) /\
  (is_Some (tickets d !! tid) -> list_events_result d tid (list_events d tid)).
Proof.
  unfold list_events_result, list_events.
  destruct (tickets d !! tid) eqn:Ht; split; [|split| |split].
  - intros e. split; [intros (out & Hout & _); discriminate|].
    intros [Hn _]; discriminate.
  - intros out (out' & [= <-] & Hp & Hs). split; [eauto|]. split; [done|].
    split; [|done]. intros ev. rewrite Hp. unfold events_of.
    rewrite list_elem_of_filter. tauto.
  - intros _. eexists. split; [reflexivity|]. split.
    + apply merge_sort_Permutation.
    + unfold sort_asc. apply Sorted_merge_sort.
      intros a b. destruct (Z.le_ge_cases (e_at a) (e_at b)); [left|right]; lia.
  - intros e. split; [intros H; inversion H; auto|]. intros [_ ->]; reflexivity.
  - intros out H. discriminate.
  - intros [? ?]; discriminate.
Qed.

(** C9, refuted: a limit outside [1,200] is not clamped; the request
    is rejected with a validation error and no list is returned. *)
Lemma list_limit_counterexample :
  ~ (forall d q, exists out, list_tickets_result d q (inr out)).
Proof.
  intros H.
  destruct (H (db (submit_t empty_world)) (mkQuery None None None None (Some 0)))
    as [out Hout].
  unfold list_tickets_result in Hout. simpl in Hout. discriminate.
Qed.

(** The filters of a List request, as they act on a returned row. *)
Definition filters_hold (q : ListQuery) (t : Ticket) : Prop :=
  (forall u, q_user_id q = Some u -> u <> "" -> user_id t = Some u) /\
  (forall s, q_status q = Some s -> status t = s) /\
  (q_unassigned q = Some true -> assigned_reviewer_id t = None) /\
  (forall r, q_reviewer_id q = Some r -> r <> "" -> assigned_reviewer_id t = Some r).

Lemma truthy_Some_nonempty (o : option string) u :
  o = Some u -> u <> "" -> truthy o = true.
Proof.
  intros -> Hu. simpl. apply negb_true_iff, String.eqb_neq. done.
Qed.

Lemma ticket_filter_sound q t : ticket_filter q t = true -> filters_hold q t.
Proof.
  unfold ticket_filter, filters_hold. intros H.
  apply andb_true_iff in H as [H Hr]. apply andb_true_iff in H as [H Hn].
  apply andb_true_iff in H as [Hu Hs].
  split; [|split; [|split]].
  - intros u Hq Hne. rewrite (truthy_Some_nonempty _ u Hq Hne) in Hu.
    apply bool_decide_eq_true in Hu. congruence.
  - intros s Hq. rewrite Hq in Hs. by apply bool_decide_eq_true in Hs.
  - intros Hq. rewrite bool_decide_true in Hn by done.
    by apply bool_decide_eq_true in Hn.
  - intros r Hq Hne. rewrite (truthy_Some_nonempty _ r Hq Hne) in Hr.
    apply bool_decide_eq_true in Hr. congruence.
Qed.

Lemma query_limit_spec q lim :
  query_limit q = Some lim <-> lim = default 50 (q_limit q) /\ 1 <= lim <= 200.
Proof.
  unfold query_limit. destruct ((1 <=? _) && (_ <=? 200)) eqn:E.
  - apply andb_true_iff in E as [E1 E2]. apply Z.leb_le in E1, E2.
    split; [intros [= <-]; lia|]. intros [-> _]. reflexivity.
  - apply andb_false_iff in E. split; [discriminate|].
    intros [-> H]. destruct E as [E|E]; apply Z.leb_gt in E; lia.
Qed.

(** C9, as the code has it: a limit (default 50) outside [1,200] makes
    List fail with a validation error; otherwise List returns
    min(limit, number of matching rows) stored tickets, newest created
    first, each satisfying the status filter if given, the user and
    reviewer filters if given non-empty, and having no reviewer when
    [unassigned=true]; the stable sort of the rows is one such answer. *)
Theorem list_tickets_filtered (d : DB) (q : ListQuery) :
  (forall e, list_tickets_result d q (inl e)
     <-> e = ValidationError /\ ~ (1 <= default 50 (q_limit q) <= 200)) /\
  (forall out, list_tickets_result d q (inr out) ->
     1 <= default 50 (q_limit q) <= 200 /\
     length out = Nat.min (Z.to_nat (default 50 (q_limit q)))
                          (length (filter (fun t => ticket_filter q t = true) (ticket_rows d))) /\
     Sorted (fun a b => created_at b <= created_at a) out /\
     (forall t, t ∈ out -> t ∈ ticket_rows d /\ filters_hold q t)) /\
  (1 <= default 50 (q_limit q) <= 200 -> list_tickets_result d q (list_tickets d q)).
Proof.
  unfold list_tickets_result, list_tickets.
  destruct (query_limit q) as [lim|] eqn:Hl.
  - apply query_limit_spec in Hl as [Hlim Hrange]. rewrite <- Hlim.
    split; [|split].
    + intros e. split; [intros (s & _ & Hs); discriminate|]. intros [_ Hn]; lia.
    + intros out (sorted & [Hp Hs] & [= ->]). split; [done|]. split.
      { rewrite length_take, Hp. reflexivity. }
      split; [by apply Sorted_take|].
      intros t Ht. apply elem_of_take in Ht as (i & Hi & _).
      apply list_elem_of_lookup_2 in Hi. rewrite Hp in Hi.
      apply list_elem_of_filter in Hi as [Hf Hin].
      split; [done|]. by apply ticket_filter_sound.
    + intros _. eexists. split; [|reflexivity]. split.
      * apply merge_sort_Permutation.
      * unfold sort_desc. apply Sorted_merge_sort.
        intros a b. destruct (Z.le_ge_cases (created_at a) (created_at b)); [right|left]; lia.
  - assert (Hout : ~ (1 <= default 50 (q_limit q) <= 200)).
    { intros Hr. assert (query_limit q = Some (default 50 (q_limit q))) by
        (apply query_limit_spec; done). congruence. }
    split; [|split].
    + intros e. split; [intros [= <-]; done|]. intros [-> _]. reflexivity.
    + intros out H. discriminate.
    + intros Hr. contradiction.
Qed.

Lemma list_tickets_filtered_witness :
  list_tickets_result (db (submit_t empty_world))
    (mkQuery (Some "kev") (Some submitted) (Some true) None None)
    (list_tickets (db (submit_t empty_world))
       (mkQuery (Some "kev") (Some submitted) (Some true) None None)).
Proof.
  apply (list_tickets_filtered (db (submit_t empty_world))
           (mkQuery (Some "kev") (Some submitted) (Some true) None None)).
  simpl. lia.
Defined.

(** ** The rest of the API surface *)

(** The outcomes of [require_api_key]. *)
Inductive AuthErr :=
| Misconfigured   (* 500 "Server misconfigured: API_KEY not set" *)
| MissingKey      (* 401 "Missing API Key" *)
| InvalidKey.     (* 401 "Invalid API Key" *)

(** [require_api_key]: [API_KEY] is the environment variable, [x_api_key]
    the request header. *)
Definition require_api_key (API_KEY x_api_key : option string) : AuthErr + unit :=
  if negb (truthy API_KEY) then inl Misconfigured
  else match x_api_key with
       | None => inl MissingKey
       | Some x => if bool_decide (Some x = API_KEY) then inr tt else inl InvalidKey
       end.



(** [GET /tickets/{id}]. *)
Definition get_ticket (d : DB) (ticket_id : string) : Err + Ticket :=
  match tickets d !! ticket_id with
  | None => inl NotFound
  | Some t => inr t
  end.

(** The two 404s of [GET /tickets/{id}/result]. *)
Inductive GetResultErr :=
| TicketNotFound   (* 404 "Ticket not found" *)
| ResultNotFound.  (* 404 "Result not found" *)

(** [GET /tickets/{id}/result]; [t.result] is the row of [results] with
    this [ticket_id]. *)
Definition get_result (d : DB) (ticket_id : string) : GetResultErr + Result :=
  match tickets d !! ticket_id with
  | None => inl TicketNotFound
  | Some _ =>
      match results d !! ticket_id with
      | None => inl ResultNotFound
      | Some r => inr r
      end
  end.

(** X1: the API key check passes exactly when [API_KEY] is set to a
    non-empty value and the header carries that value; an unset or empty
    [API_KEY] fails with 500 whatever the header. *)
Theorem require_api_key_spec (API_KEY x_api_key : option string) :
  (require_api_key API_KEY x_api_key = inr tt <->
     exists k, API_KEY = Some k /\ k <> "" /\ x_api_key = Some k) /\
  (truthy API_KEY = false -> require_api_key API_KEY x_api_key = inl Misconfigured) /\
  (truthy API_KEY = true -> x_api_key = None -> require_api_key API_KEY x_api_key = inl MissingKey).
Proof.
  unfold require_api_key. split; [|split].
  - destruct API_KEY as [k|]; simpl.
    + destruct (String.eqb k "") eqn:Ek; simpl.
      * apply String.eqb_eq in Ek. subst. split; [discriminate|].
        intros (k' & [= <-] & Hne & _). done.
      * apply String.eqb_neq in Ek. destruct x_api_key as [x|].
        -- case_bool_decide as Hx; split.
           ++ intros _. injection Hx as ->. eauto.
           ++ done.
           ++ discriminate.
           ++ intros (k' & [= <-] & _ & [= ->]). done.
        -- split; [discriminate|]. intros (k' & _ & _ & ?); discriminate.
    + split; [discriminate|]. intros (k & ? & _); discriminate.
  - intros ->. reflexivity.
  - intros -> ->. reflexivity.
Qed.


(** X3: a ticket created by [POST /tickets] is what [GET /tickets/{id}]
    returns right after, and after any further requests the ticket is
    still found with the same id, submitter, brand, category, notes,
    images and creation time. *)
Definition same_identity (t t' : Ticket) : Prop :=
  id t' = id t /\ user_id t' = user_id t /\ brand t' = brand t /\
  category t' = category t /\ notes t' = notes t /\
  image_urls t' = image_urls t /\ created_at t' = created_at t.

Lemma exec_op_identity o w tid t t' :
  tickets (db w) !! tid = Some t -> tickets (db (exec_op o w)) !! tid = Some t' ->
  same_identity t t'.
Proof.
  intros Ht Ht'. unfold same_identity.
  destruct o; unfold_handlers; simpl in Ht'.
  - destruct (negb _); [simpl in Ht'; rewrite Ht in Ht'; injection Ht' as <-; tauto|].
    destruct (upload_images _ _ _ _) as [[e|urls] bl];
      [simpl in Ht'; rewrite Ht in Ht'; injection Ht' as <-; tauto|].
    destruct (tickets (db w) !! ticket_id) eqn:E;
      [simpl in Ht'; rewrite Ht in Ht'; injection Ht' as <-; tauto|].
    simpl in Ht'. destruct (decide (ticket_id = tid)) as [<-|?]; [congruence|].
    rewrite lookup_insert_ne in Ht' by done. rewrite Ht in Ht'. injection Ht' as <-. tauto.
  - destruct (tickets (db w) !! ticket_id) as [t0|] eqn:E;
      [|simpl in Ht'; rewrite Ht in Ht'; injection Ht' as <-; tauto].
    destruct (_ && _); [simpl in Ht'; rewrite Ht in Ht'; injection Ht' as <-; tauto|].
    simpl in Ht'. destruct (decide (ticket_id = tid)) as [<-|?].
    + rewrite lookup_insert_eq in Ht'. rewrite E in Ht. injection Ht as <-.
      injection Ht' as <-. simpl. tauto.
    + rewrite lookup_insert_ne in Ht' by done. rewrite Ht in Ht'. injection Ht' as <-. tauto.
  - destruct (tickets (db w) !! ticket_id) as [t0|] eqn:E;
      [|simpl in Ht'; rewrite Ht in Ht'; injection Ht' as <-; tauto].
    destruct (negb _); [simpl in Ht'; rewrite Ht in Ht'; injection Ht' as <-; tauto|].
    destruct (negb _); [simpl in Ht'; rewrite Ht in Ht'; injection Ht' as <-; tauto|].
    simpl in Ht'. destruct (decide (ticket_id = tid)) as [<-|?].
    + rewrite lookup_insert_eq in Ht'. rewrite E in Ht. injection Ht as <-.
      injection Ht' as <-. simpl. tauto.
    + rewrite lookup_insert_ne in Ht' by done. rewrite Ht in Ht'. injection Ht' as <-. tauto.
  - destruct (tickets (db w) !! ticket_id) as [t0|] eqn:E;
      [|simpl in Ht'; rewrite Ht in Ht'; injection Ht' as <-; tauto].
    destruct (negb _); [simpl in Ht'; rewrite Ht in Ht'; injection Ht' as <-; tauto|].
    simpl in Ht'. destruct (decide (ticket_id = tid)) as [<-|?].
    + rewrite lookup_insert_eq in Ht'. rewrite E in Ht. injection Ht as <-.
      injection Ht' as <-. simpl. tauto.
    + rewrite lookup_insert_ne in Ht' by done. rewrite Ht in Ht'. injection Ht' as <-. tauto.
  - destruct (tickets (db w) !! ticket_id) as [t0|] eqn:E;
      [|simpl in Ht'; rewrite Ht in Ht'; injection Ht' as <-; tauto].
    destruct (results (db w) !! ticket_id);
      [simpl in Ht'; rewrite Ht in Ht'; injection Ht' as <-; tauto|].
    simpl in Ht'. destruct (decide (ticket_id = tid)) as [<-|?].
    + rewrite lookup_insert_eq in Ht'. rewrite E in Ht. injection Ht as <-.
      injection Ht' as <-. simpl. tauto.
    + rewrite lookup_insert_ne in Ht' by done. rewrite Ht in Ht'. injection Ht' as <-. tauto.
Qed.

Lemma same_identity_trans t1 t2 t3 :
  same_identity t1 t2 -> same_identity t2 t3 -> same_identity t1 t3.
Proof. unfold same_identity. intuition congruence. Qed.

Lemma exec_ops_identity os w tid t :
  tickets (db w) !! tid = Some t ->
  exists t', tickets (db (exec_ops os w)) !! tid = Some t' /\ same_identity t t'.
Proof.
  revert w t. induction os as [|o os IH]; intros w t Ht; simpl.
  - exists t. split; [done|]. unfold same_identity. tauto.
  - destruct (exec_op_tickets_persist o w tid ltac:(eauto)) as [t1 Ht1].
    destruct (IH _ _ Ht1) as (t' & Ht' & Hs). exists t'. split; [done|].
    eapply same_identity_trans; [|exact Hs]. eapply exec_op_identity; eauto.
Qed.

(** X3: what [POST /tickets] returns is what [GET /tickets/{id}] returns
    right after; the ticket stays found after any later requests, with
    the same id, submitter, brand, category, notes, image URLs and
    creation time. *)
Theorem create_then_get_ticket (brand category notes : string)
    (images : list (option string)) (user_id : option string)
    (ticket_id : string) (put_ok : string -> bool) (now t_ev : Z) (w : World)
    (t : Ticket)
    (Hok : fst (create_ticket brand category notes images user_id ticket_id
                  put_ok now t_ev w) = inr t) :
  let w1 := snd (create_ticket brand category notes images user_id ticket_id
                   put_ok now t_ev w) in
  get_ticket (db w1) ticket_id = inr t /\
  forall os, exists t', get_ticket (db (exec_ops os w1)) ticket_id = inr t' /\
                        same_identity t t'.
Proof.
  intros w1.
  assert (Hl : tickets (db w1) !! ticket_id = Some t).
  { unfold w1. unfold create_ticket in *.
    destruct (negb _); [discriminate|].
    destruct (upload_images _ _ _ _) as [[e|urls] bl]; [discriminate|].
    destruct (tickets (db w) !! ticket_id); [discriminate|].
    simpl in *. injection Hok as <-. apply lookup_insert_eq. }
  unfold get_ticket. rewrite Hl. split; [done|].
  intros os. destruct (exec_ops_identity os w1 ticket_id t Hl) as (t' & Ht' & Hs).
  rewrite Ht'. eauto.
Qed.

Lemma create_then_get_ticket_witness :
  get_ticket (db (submit_t empty_world)) "t"
    = inr (mkTicket "t" (Some "kev") "Dior" "lipstick" "" submitted
             [sample_url] None None 10 10).
Proof.
  apply (create_then_get_ticket "Dior" "lipstick" "" [Some "1.jpeg"] (Some "kev") "t"
           all_ok 10 10 empty_world
           (mkTicket "t" (Some "kev") "Dior" "lipstick" "" submitted
              [sample_url] None None 10 10)).
  reflexivity.
Defined.

(** X4: on an existing ticket without a result, [GET .../result] gives
    the "Result not found" 404, distinct from the "Ticket not found" one;
    after a successful [POST .../result], it returns that result after
    any later requests. *)
Theorem create_then_get_result (w : World) (tid : string) (t : Ticket)
    (v : Verdict) (rat rid : option string) (t_rev t_upd t_ev : Z)
    (Ht : tickets (db w) !! tid = Some t) :
  (results (db w) !! tid = None -> get_result (db w) tid = inl ResultNotFound) /\
  (forall r os,
     fst (create_result tid v rat rid t_rev t_upd t_ev (db w)) = inr r ->
     get_result (db (exec_ops os (exec_op (RecordResult tid v rat rid t_rev t_upd t_ev) w))) tid
       = inr r).
Proof.
  split.
  - intros Hn. unfold get_result. rewrite Ht, Hn. reflexivity.
  - intros r os Hok. unfold get_result.
    destruct (results (db w) !! tid) as [r0|] eqn:Hr.
    { unfold create_result in Hok. rewrite Ht, Hr in Hok. discriminate. }
    assert (Hr1 : results (db (exec_op (RecordResult tid v rat rid t_rev t_upd t_ev) w)) !! tid
                  = Some r).
    { unfold create_result in Hok. rewrite Ht, Hr in Hok. injection Hok as <-.
      unfold_handlers. rewrite Ht, Hr. simpl. apply lookup_insert_eq. }
    destruct (exec_ops_tickets_persist os
                (exec_op (RecordResult tid v rat rid t_rev t_upd t_ev) w) tid
                (exec_op_tickets_persist _ w tid ltac:(eauto))) as [t' ->].
    rewrite (exec_ops_results_persist os _ tid r Hr1). reflexivity.
Qed.

Lemma create_then_get_result_witness :
  get_result (db (exec_ops [UpdateStatus "t" rejected 12 12]
                    (exec_op (RecordResult "t" authentic None (Some "rev_001") 11 11 11)
                       (submit_t empty_world)))) "t"
    = inr (mkResult "t" authentic "" (Some "rev_001") 11).
Proof.
  apply (create_then_get_result (submit_t empty_world) "t"
           (mkTicket "t" (Some "kev") "Dior" "lipstick" "" submitted
              [sample_url] None None 10 10)
           authentic None (Some "rev_001") 11 11 11 eq_refl).
  reflexivity.
Defined.

(** One request appends at most one event, numbered with the counter. *)
Lemma exec_op_events o w :
  (events (db (exec_op o w)) = events (db w) /\
   next_event_id (db (exec_op o w)) = next_event_id (db w)) \/
  (exists e, events (db (exec_op o w)) = events (db w) ++ [e] /\
     e_id e = next_event_id (db w) /\
     next_event_id (db (exec_op o w)) = next_event_id (db w) + 1 /\
     is_Some (tickets (db (exec_op o w)) !! e_ticket_id e)).
Proof.
  destruct o; unfold_handlers; simpl.
  - destruct (negb _); [auto|].
    destruct (upload_images _ _ _ _) as [[e|urls] bl]; [auto|].
    destruct (tickets (db w) !! ticket_id); [auto|]. simpl.
    right. eexists. split; [reflexivity|]. split; [reflexivity|].
    split; [reflexivity|]. simpl. rewrite lookup_insert_eq. eauto.
  - destruct (tickets (db w) !! ticket_id); [|auto].
    destruct (_ && _); [auto|]. simpl.
    right. eexists. split; [reflexivity|]. split; [reflexivity|].
    split; [reflexivity|]. simpl. rewrite lookup_insert_eq. eauto.
  - destruct (tickets (db w) !! ticket_id); [|auto].
    destruct (negb _); [auto|]. destruct (negb _); [auto|]. simpl.
    right. eexists. split; [reflexivity|]. split; [reflexivity|].
    split; [reflexivity|]. simpl. rewrite lookup_insert_eq. eauto.
  - destruct (tickets (db w) !! ticket_id); [|auto].
    destruct (negb _); [auto|]. simpl.
    right. eexists. split; [reflexivity|]. split; [reflexivity|].
    split; [reflexivity|]. simpl. rewrite lookup_insert_eq. eauto.
  - destruct (tickets (db w) !! ticket_id); [|auto].
    destruct (results (db w) !! ticket_id); [auto|]. simpl.
    right. eexists. split; [reflexivity|]. split; [reflexivity|].
    split; [reflexivity|]. simpl. rewrite lookup_insert_eq. eauto.
Qed.

(** X5: in every reachable state the event log is numbered 1, 2, 3, ...
    in insertion order, and the counter is the next number; event ids are
    therefore unique and increasing. *)
Theorem event_ids_consecutive (w : World) (Hr : reachable w) :
  (forall (i : nat) e, events (db w) !! i = Some e -> e_id e = Z.of_nat i + 1) /\
  next_event_id (db w) = Z.of_nat (length (events (db w))) + 1.
Proof.
  induction Hr as [|w o Hr [IHi IHn]].
  - split; [intros i e H; simpl in H; rewrite lookup_nil in H; discriminate|].
    reflexivity.
  - destruct (exec_op_events o w) as [[He Hn] | (e & He & Hid & Hn & _)].
    + rewrite He, Hn. auto.
    + rewrite He, Hn. split.
      * intros i e' Hi. apply lookup_snoc_Some in Hi as [[_ Hi] | [-> <-]].
        -- auto.
        -- lia.
      * rewrite length_app. simpl. lia.
Qed.

Lemma event_ids_consecutive_witness :
  next_event_id (db same_instant_world) = 3.
Proof.
  assert (Hr : reachable same_instant_world) by (repeat constructor).
  rewrite (proj2 (event_ids_consecutive same_instant_world Hr)). reflexivity.
Defined.

Lemma upload_images_prefix put_ok tid imgs bl :
  bl `prefix_of` snd (upload_images put_ok tid imgs bl).
Proof.
  revert bl. induction imgs as [|img rest IH]; intros bl; simpl; [done|].
  destruct (put_ok _); [|done].
  specialize (IH (bl ++ [String.append tid (String.append "/"
                  (if truthy img then default "" img else "image.jpg"))])).
  destruct (upload_images put_ok tid rest _) as [[e|urls] bl'] eqn:E; simpl in *;
    (etrans; [apply prefix_app_r; reflexivity|exact IH]).
Qed.

Lemma exec_op_prefix o w :
  events (db w) `prefix_of` events (db (exec_op o w)) /\
  blobs w `prefix_of` blobs (exec_op o w).
Proof.
  split.
  - destruct (exec_op_events o w) as [[-> _] | (e & -> & _)]; [done|].
    by apply prefix_app_r.
  - destruct o; simpl; try done. unfold create_ticket.
    destruct (negb _); [done|].
    pose proof (upload_images_prefix put_ok ticket_id images (blobs w)) as Hp.
    destruct (upload_images _ _ _ _) as [[e|urls] bl]; simpl in *; [done|].
    destruct (tickets (db w) !! ticket_id); done.
Qed.

(** X6: the event log and the object store are append-only: after any
    sequence of requests the old event log and the old list of stored
    keys are prefixes of the new ones (no event is changed or removed,
    and no uploaded image is ever deleted, even when Submit fails). *)
Theorem exec_ops_append_only (os : list Op) (w : World) :
  events (db w) `prefix_of` events (db (exec_ops os w)) /\
  blobs w `prefix_of` blobs (exec_ops os w).
Proof.
  revert w. induction os as [|o os IH]; intros w; simpl; [done|].
  destruct (exec_op_prefix o w) as [H1 H2]. destruct (IH (exec_op o w)) as [H3 H4].
  split; etrans; eauto.
Qed.

(** X7: in every reachable state each event belongs to a stored ticket. *)
Theorem events_reference_tickets (w : World) (Hr : reachable w) :
  forall e, e ∈ events (db w) -> is_Some (tickets (db w) !! e_ticket_id e).
Proof.
  induction Hr as [|w o Hr IH]; intros e He.
  - simpl in He. apply not_elem_of_nil in He. contradiction.
  - destruct (exec_op_events o w) as [[Hev _] | (e' & Hev & _ & _ & Hs)];
      rewrite Hev in He.
    + apply exec_op_tickets_persist, IH, He.
    + apply elem_of_app in He as [He | He%list_elem_of_singleton].
      * apply exec_op_tickets_persist, IH, He.
      * subst. exact Hs.
Qed.

Lemma events_reference_tickets_witness :
  is_Some (tickets (db same_instant_world) !! e_ticket_id ev_claimed).
Proof.
  assert (Hr : reachable same_instant_world) by (repeat constructor).
  apply (events_reference_tickets same_instant_world Hr).
  change (events (db same_instant_world)) with [ev_created; ev_claimed].
  rewrite list_elem_of_In. simpl. auto.
Defined.

Ltac old_row Ht' Hk k :=
  simpl in Ht'; try congruence;
  match type of Ht' with
  | <[?j := _]> _ !! _ = _ =>
      destruct (decide (j = k)) as [<-|?];
      [congruence | rewrite lookup_insert_ne in Ht' by done; congruence]
  end.

(** A row that is new after a request was written by a Submit, which
    also logged its [created] event. *)
Lemma exec_op_ticket_origin o w k t' :
  tickets (db (exec_op o w)) !! k = Some t' ->
  is_Some (tickets (db w) !! k) \/
  (tickets (db w) !! k = None /\ id t' = k /\ status t' = submitted /\
   exists e, events (db (exec_op o w)) = events (db w) ++ [e] /\
     e_ticket_id e = k /\ kind e = created /\ to_status e = Some submitted).
Proof.
  intros Ht'. destruct (tickets (db w) !! k) eqn:Hk; [left; eauto|right].
  destruct o; unfold_handlers; simpl in *.
  - destruct (negb _); [simpl in Ht'; congruence|].
    destruct (upload_images _ _ _ _) as [[e|urls] bl]; [simpl in Ht'; congruence|].
    destruct (tickets (db w) !! ticket_id) eqn:E; [simpl in Ht'; congruence|].
    simpl in Ht'. destruct (decide (ticket_id = k)) as [<-|?].
    + rewrite lookup_insert_eq in Ht'. injection Ht' as <-. simpl.
      repeat split; try done. eexists. split; [reflexivity|]. simpl. auto.
    + rewrite lookup_insert_ne in Ht' by done. congruence.
  - destruct (tickets (db w) !! ticket_id) eqn:E; [|simpl in Ht'; congruence].
    destruct (_ && _); old_row Ht' Hk k.
  - destruct (tickets (db w) !! ticket_id) eqn:E; [|simpl in Ht'; congruence].
    destruct (negb _); [simpl in Ht'; congruence|].
    destruct (negb _); old_row Ht' Hk k.
  - destruct (tickets (db w) !! ticket_id) eqn:E; [|simpl in Ht'; congruence].
    destruct (negb _); old_row Ht' Hk k.
  - destruct (tickets (db w) !! ticket_id) eqn:E; [|simpl in Ht'; congruence].
    destruct (results (db w) !! ticket_id); old_row Ht' Hk k.
Qed.



(** X10: in every reachable state each stored ticket has a [created]
    event with [to_status = submitted] in the log, so every answer of
    [GET /tickets/{id}/events] for it is non-empty and contains it. *)
Theorem ticket_has_created_event (w : World) (Hr : reachable w) :
  forall k t, tickets (db w) !! k = Some t ->
    (exists e, e ∈ events (db w) /\ e_ticket_id e = k /\ kind e = created /\
               to_status e = Some submitted) /\
    (forall out, list_events_result (db w) k (inr out) ->
       exists e, e ∈ out /\ kind e = created).
Proof.
  intros k t Ht.
  assert (Hex : exists e, e ∈ events (db w) /\ e_ticket_id e = k /\ kind e = created /\
                          to_status e = Some submitted).
  { revert k t Ht. induction Hr as [|w o Hr IH]; intros k t Ht.
    - simpl in Ht. rewrite lookup_empty in Ht. discriminate.
    - destruct (exec_op_ticket_origin o w k t Ht) as [[t0 Ht0] | (_ & _ & _ & e & He & H1 & H2 & H3)].
      + destruct (IH k t0 Ht0) as (e & Hin & H1 & H2 & H3). exists e.
        split; [|done]. destruct (exec_op_prefix o w) as [[l Hl] _].
        rewrite Hl. apply elem_of_app. auto.
      + exists e. rewrite He. split; [|done]. apply elem_of_app. right.
        by apply list_elem_of_singleton. }
  split; [done|]. intros out Hout.
  destruct Hex as (e & Hin & H1 & H2 & _).
  unfold list_events_result in Hout. rewrite Ht in Hout.
  destruct Hout as (out' & [= <-] & Hp & _).
  exists e. split; [|done]. rewrite Hp. unfold events_of.
  apply list_elem_of_filter. auto.
Qed.

Lemma ticket_has_created_event_witness :
  exists e, e ∈ events (db same_instant_world) /\ e_ticket_id e = "t" /\
            kind e = created /\ to_status e = Some submitted.
Proof.
  assert (Hr : reachable same_instant_world) by (repeat constructor).
  apply (ticket_has_created_event same_instant_world Hr "t"
           (mkTicket "t" (Some "kev") "Dior" "lipstick" "" in_review
              [sample_url] (Some "rev_001") (Some 10) 10 10)).
  reflexivity.
Defined.





(** The object-store key and the public URL of one uploaded image, as
    [create_ticket] builds them. *)
Definition image_key (ticket_id : string) (img : option string) : string :=
  String.append ticket_id
    (String.append "/" (if truthy img then default "" img else "image.jpg")).

Definition image_url (key : string) : string :=
  String.append MINIO_ENDPOINT
    (String.append "/" (String.append BUCKET_NAME (String.append "/" key))).

Lemma upload_images_all_ok put_ok tid imgs bl :
  Forall (fun k => put_ok k = true) (map (image_key tid) imgs) ->
  upload_images put_ok tid imgs bl
    = (inr (map image_url (map (image_key tid) imgs)), bl ++ map (image_key tid) imgs).
Proof.
  revert bl. induction imgs as [|img rest IH]; intros bl Hok; simpl.
  - by rewrite app_nil_r.
  - inversion Hok as [|? ? Hk Hrest]; subst. unfold image_key in Hk. rewrite Hk.
    rewrite IH by done. rewrite <- app_assoc. reflexivity.
Qed.


(** X11: a Submit whose uploads all succeed, with a fresh ticket id,
    creates the ticket; its image URLs are, in order,
    [MINIO_ENDPOINT/tickets/{ticket_id}/{filename}] with [filename]
    defaulting to "image.jpg" when the upload has no name, and exactly
    those keys are added to the object store. *)
Theorem create_ticket_uploads (brand category notes : string)
    (images : list (option string)) (user_id : option string)
    (ticket_id : string) (put_ok : string -> bool) (now t_ev : Z) (w : World)
    (Hn : (1 <= length images <= 5)%nat)
    (Hok : Forall (fun k => put_ok k = true) (map (image_key ticket_id) images))
    (Hfresh : tickets (db w) !! ticket_id = None) :
  let r := create_ticket brand category notes images user_id ticket_id put_ok now t_ev w in
  exists t, fst r = inr t /\
    image_urls t = map image_url (map (image_key ticket_id) images) /\
    length (image_urls t) = length images /\
    blobs (snd r) = blobs w ++ map (image_key ticket_id) images.
Proof.
  intros r. unfold r, create_ticket.
  assert (Hv : negb (Nat.leb 1 (length images) && Nat.leb (length images) 5) = false).
  { apply negb_false_iff, andb_true_iff. split; apply Nat.leb_le; lia. }
  rewrite Hv, upload_images_all_ok by done. rewrite Hfresh. simpl.
  eexists. split; [reflexivity|]. simpl. split; [reflexivity|].
  split; [by rewrite !length_map|reflexivity].
Qed.

Lemma create_ticket_uploads_witness :
  exists t, fst (create_ticket "Dior" "lipstick" "" [None; Some "2.png"] None "u"
                   all_ok 5 5 empty_world) = inr t /\
    image_urls t = map image_url (map (image_key "u") [None; Some "2.png"]) /\
    length (image_urls t) = length [None; Some "2.png"] /\
    blobs (snd (create_ticket "Dior" "lipstick" "" [None; Some "2.png"] None "u"
                  all_ok 5 5 empty_world))
      = blobs empty_world ++ map (image_key "u") [None; Some "2.png"].
Proof.
  apply (create_ticket_uploads "Dior" "lipstick" "" [None; Some "2.png"] None "u"
           all_ok 5 5 empty_world).
  - simpl. lia.
  - repeat constructor.
  - reflexivity.
Defined.




(** Whether the handler of a request returned normally. *)
Definition succeeded {A} (r : Err + A) : bool :=
  match r with inl _ => false | inr _ => true end.

Definition op_ok (o : Op) (w : World) : bool :=
  match o with
  | Submit b c n imgs u tid ok now t_ev => succeeded (fst (create_ticket b c n imgs u tid ok now t_ev w))
  | Claim tid r t1 t2 t3 => succeeded (fst (claim_ticket tid r t1 t2 t3 (db w)))
  | Unclaim tid r t1 t2 => succeeded (fst (unclaim_ticket tid r t1 t2 (db w)))
  | UpdateStatus tid s t1 t2 => succeeded (fst (update_status tid s t1 t2 (db w)))
  | RecordResult tid v rat rid t1 t2 t3 =>
      succeeded (fst (create_result tid v rat rid t1 t2 t3 (db w)))
  end.

(** The ticket a request names and the event kind its handler logs. *)
Definition op_ticket (o : Op) : string :=
  match o with
  | Submit _ _ _ _ _ tid _ _ _ | Claim tid _ _ _ _ | Unclaim tid _ _ _
  | UpdateStatus tid _ _ _ | RecordResult tid _ _ _ _ _ _ => tid
  end.

Definition op_kind (o : Op) : EventKind :=
  match o with
  | Submit _ _ _ _ _ _ _ _ _ => created
  | Claim _ _ _ _ _ => claimed
  | Unclaim _ _ _ _ => unclaimed
  | UpdateStatus _ _ _ _ => status_changed
  | RecordResult _ _ _ _ _ _ _ => result_added
  end.

(** X13: a request that fails leaves the database unchanged (only
    Submit's uploads may remain in the object store); a request that
    succeeds appends exactly one event, of the kind of the request, for
    the ticket it names, numbered with the counter. *)
Theorem exec_op_one_event (o : Op) (w : World) :
  (op_ok o w = false -> db (exec_op o w) = db w) /\
  (op_ok o w = true ->
     exists e, events (db (exec_op o w)) = events (db w) ++ [e] /\
       e_ticket_id e = op_ticket o /\ kind e = op_kind o /\
       e_id e = next_event_id (db w)).
Proof.
  destruct o; unfold op_ok; unfold_handlers; simpl.
  - destruct (negb _); [simpl; split; [done|discriminate]|].
    destruct (upload_images _ _ _ _) as [[e|urls] bl]; [simpl; split; [done|discriminate]|].
    destruct (tickets (db w) !! ticket_id); [simpl; split; [done|discriminate]|].
    simpl. split; [discriminate|]. intros _. eexists. split; [reflexivity|]. done.
  - destruct (tickets (db w) !! ticket_id); [|simpl; split; [done|discriminate]].
    destruct (_ && _); [simpl; split; [done|discriminate]|].
    simpl. split; [discriminate|]. intros _. eexists. split; [reflexivity|]. done.
  - destruct (tickets (db w) !! ticket_id); [|simpl; split; [done|discriminate]].
    destruct (negb _); [simpl; split; [done|discriminate]|].
    destruct (negb _); [simpl; split; [done|discriminate]|].
    simpl. split; [discriminate|]. intros _. eexists. split; [reflexivity|]. done.
  - destruct (tickets (db w) !! ticket_id); [|simpl; split; [done|discriminate]].
    destruct (negb _); [simpl; split; [done|discriminate]|].
    simpl. split; [discriminate|]. intros _. eexists. split; [reflexivity|]. done.
  - destruct (tickets (db w) !! ticket_id); [|simpl; split; [done|discriminate]].
    destruct (results (db w) !! ticket_id); [simpl; split; [done|discriminate]|].
    simpl. split; [discriminate|]. intros _. eexists. split; [reflexivity|]. done.
Qed.

(** X14: on an existing ticket Claim fails with Conflict exactly when
    the stored reviewer id is non-empty and differs from the caller, and
    then changes nothing; otherwise it stores the caller and the claim
    time, advances submitted and need_more_info to in_review (other
    statuses kept), and logs a [claimed] event by the caller from the old
    to the new status. *)
Theorem claim_rule (d : DB) (tid : string) (t : Ticket) (reviewer : string)
    (t_claim t_upd t_ev : Z) (Ht : tickets d !! tid = Some t) :
  let r := claim_ticket tid reviewer t_claim t_upd t_ev d in
  let st := match status t with
            | submitted | need_more_info => in_review
            | s => s
            end in
  (fst r = inl Conflict <->
     truthy (assigned_reviewer_id t) = true /\ assigned_reviewer_id t <> Some reviewer) /\
  (fst r = inl Conflict -> snd r = d) /\
  (fst r <> inl Conflict ->
     fst r = inr (set_claim t st (Some reviewer) (Some t_claim) t_upd) /\
     tickets (snd r) !! tid = Some (set_claim t st (Some reviewer) (Some t_claim) t_upd) /\
     last (events (snd r)) = Some (mkEvent (next_event_id d) tid claimed (Some reviewer)
                                    (Some (status t)) (Some st) t_ev None)).
Proof.
  intros r st. unfold r, claim_ticket. rewrite Ht.
  destruct (truthy (assigned_reviewer_id t)) eqn:Htr; simpl.
  - case_bool_decide as Heq; simpl.
    + split; [split; [discriminate|intros [_ H]; contradiction]|].
      split; [discriminate|]. intros _. split; [done|].
      split; [apply lookup_insert_eq|]. apply last_snoc.
    + split; [tauto|]. split; [done|]. intros H; contradiction.
  - split; [split; [discriminate|intros [H _]; discriminate]|].
    split; [discriminate|]. intros _. split; [done|].
    split; [apply lookup_insert_eq|]. apply last_snoc.
Qed.

Lemma claim_rule_witness :
  fst (claim_ticket "t" "rev_002" 12 12 12 (db same_instant_world)) = inl Conflict.
Proof.
  apply (claim_rule (db same_instant_world) "t"
           (mkTicket "t" (Some "kev") "Dior" "lipstick" "" in_review
              [sample_url] (Some "rev_001") (Some 10) 10 10) "rev_002" 12 12 12 eq_refl).
  split; [reflexivity|discriminate].
Defined.

(** X15: on an existing ticket Unclaim fails with InvalidState when the
    stored reviewer id is missing or empty, else with Forbidden when it
    differs from the caller, changing nothing in both cases; otherwise it
    clears the reviewer and the claim time, keeps the status, sets
    [updated_at], and logs an [unclaimed] event by the caller with no
    statuses. *)
Theorem unclaim_rule (d : DB) (tid : string) (t : Ticket) (reviewer : string)
    (t_upd t_ev : Z) (Ht : tickets d !! tid = Some t) :
  let r := unclaim_ticket tid reviewer t_upd t_ev d in
  (truthy (assigned_reviewer_id t) = false -> r = (inl InvalidState, d)) /\
  (truthy (assigned_reviewer_id t) = true -> assigned_reviewer_id t <> Some reviewer ->
     r = (inl Forbidden, d)) /\
  (assigned_reviewer_id t = Some reviewer -> reviewer <> "" ->
     fst r = inr (set_claim t (status t) None None t_upd) /\
     tickets (snd r) !! tid = Some (set_claim t (status t) None None t_upd) /\
     last (events (snd r)) = Some (mkEvent (next_event_id d) tid unclaimed (Some reviewer)
                                    None None t_ev None)).
Proof.
  intros r. unfold r, unclaim_ticket. rewrite Ht. split; [|split].
  - intros ->. reflexivity.
  - intros Htr Hne. rewrite Htr. simpl. rewrite bool_decide_false by done. reflexivity.
  - intros Ha Hne. rewrite (truthy_Some_nonempty _ reviewer Ha Hne).
    rewrite bool_decide_true by done. simpl. split; [done|].
    split; [apply lookup_insert_eq|]. apply last_snoc.
Qed.

Lemma unclaim_rule_witness :
  fst (unclaim_ticket "t" "rev_001" 12 12 (db same_instant_world))
    = inr (mkTicket "t" (Some "kev") "Dior" "lipstick" "" in_review
             [sample_url] None None 10 12).
Proof.
  apply (unclaim_rule (db same_instant_world) "t"
           (mkTicket "t" (Some "kev") "Dior" "lipstick" "" in_review
              [sample_url] (Some "rev_001") (Some 10) 10 10) "rev_001" 12 12 eq_refl).
  - reflexivity.
  - discriminate.
Defined.

(** X16: a RecordResult on an existing ticket without a result stores
    the verdict with the rationale ("" when none is given), the reviewer
    and the review time, sets the ticket to resolved whatever its status
    and sets [updated_at], keeps the claim columns (a resolved ticket may
    stay claimed), and logs a [result_added] event by the reviewer from
    the old status to resolved. *)
Theorem create_result_effects (d : DB) (tid : string) (t : Ticket) (v : Verdict)
    (rat rid : option string) (t_rev t_upd t_ev : Z)
    (Ht : tickets d !! tid = Some t) (Hnone : results d !! tid = None) :
  let r := create_result tid v rat rid t_rev t_upd t_ev d in
  fst r = inr (mkResult tid v (default "" rat) rid t_rev) /\
  results (snd r) !! tid = Some (mkResult tid v (default "" rat) rid t_rev) /\
  tickets (snd r) !! tid = Some (set_status t resolved t_upd) /\
  claim_fields (set_status t resolved t_upd) = claim_fields t /\
  last (events (snd r)) = Some (mkEvent (next_event_id d) tid result_added rid
                                 (Some (status t)) (Some resolved) t_ev None).
Proof.
  intros r. unfold r, create_result. rewrite Ht, Hnone. simpl.
  split; [done|]. split; [apply lookup_insert_eq|]. split; [apply lookup_insert_eq|].
  split; [done|]. apply last_snoc.
Qed.

Lemma create_result_effects_witness :
  tickets (snd (create_result "t" authentic None (Some "rev_001") 11 11 11
                  (db same_instant_world))) !! "t"
    = Some (mkTicket "t" (Some "kev") "Dior" "lipstick" "" resolved
              [sample_url] (Some "rev_001") (Some 10) 10 11).
Proof.
  apply (create_result_effects (db same_instant_world) "t"
           (mkTicket "t" (Some "kev") "Dior" "lipstick" "" in_review
              [sample_url] (Some "rev_001") (Some 10) 10 10)
           authentic None (Some "rev_001") 11 11 11).
  - reflexivity.
  - reflexivity.
Defined.

(** X17: every route on an absent ticket id answers 404 and changes
    nothing: Claim, Unclaim, UpdateStatus and RecordResult return
    NotFound with the database unchanged, GET returns NotFound, GET of
    the result returns "Ticket not found" and GET of the events
    returns NotFound. *)
Theorem absent_ticket_not_found (d : DB) (tid : string)
    (Habs : tickets d !! tid = None) :
  (forall r t1 t2 t3, claim_ticket tid r t1 t2 t3 d = (inl NotFound, d)) /\
  (forall r t1 t2, unclaim_ticket tid r t1 t2 d = (inl NotFound, d)) /\
  (forall s t1 t2, update_status tid s t1 t2 d = (inl NotFound, d)) /\
  (forall v rat rid t1 t2 t3, create_result tid v rat rid t1 t2 t3 d = (inl NotFound, d)) /\
  get_ticket d tid = inl NotFound /\
  get_result d tid = inl TicketNotFound /\
  list_events d tid = inl NotFound /\
  (forall r, list_events_result d tid r <-> r = inl NotFound).
Proof.
  unfold claim_ticket, unclaim_ticket, update_status, create_result, get_ticket,
    get_result, list_events, list_events_result.
  rewrite Habs. repeat split; auto.
Qed.

Lemma absent_ticket_not_found_witness :
  get_result (db same_instant_world) "nope" = inl TicketNotFound.
Proof.
  apply (absent_ticket_not_found (db same_instant_world) "nope"). reflexivity.
Defined.

(** X18: on an unassigned ticket, a Claim followed by an Unclaim by the
    same non-empty reviewer leaves the ticket unassigned with no claim
    time, but in the status the Claim gave it (in_review when it was
    submitted or need_more_info): the claim's status advance is not
    undone; the two requests log a [claimed] then an [unclaimed] event. *)
Theorem claim_then_unclaim (d : DB) (tid : string) (t : Ticket) (reviewer : string)
    (t1 t2 t3 t4 t5 : Z)
    (Ht : tickets d !! tid = Some t) (Hfree : assigned_reviewer_id t = None)
    (Hne : reviewer <> "") :
  let d1 := snd (claim_ticket tid reviewer t1 t2 t3 d) in
  let r := unclaim_ticket tid reviewer t4 t5 d1 in
  let st := match status t with
            | submitted | need_more_info => in_review
            | s => s
            end in
  fst r = inr (set_claim t st None None t4) /\
  tickets (snd r) !! tid = Some (set_claim t st None None t4) /\
  map kind (events (snd r)) = map kind (events d) ++ [claimed; unclaimed].
Proof.
  intros d1 r st. unfold r, d1, claim_ticket. rewrite Ht, Hfree. simpl.
  unfold unclaim_ticket. simpl. rewrite lookup_insert_eq. simpl.
  assert (Hb : String.eqb reviewer "" = false) by (apply String.eqb_neq; done).
  rewrite Hb. rewrite bool_decide_true by done. simpl.
  split; [done|]. split; [rewrite insert_insert_eq; apply lookup_insert_eq|].
  rewrite <- app_assoc, map_app. reflexivity.
Qed.

Lemma claim_then_unclaim_witness :
  fst (unclaim_ticket "t" "rev_001" 12 12
         (snd (claim_ticket "t" "rev_001" 11 11 11 (db (submit_t empty_world)))))
    = inr (mkTicket "t" (Some "kev") "Dior" "lipstick" "" in_review
             [sample_url] None None 10 12).
Proof.
  apply (claim_then_unclaim (db (submit_t empty_world)) "t"
           (mkTicket "t" (Some "kev") "Dior" "lipstick" "" submitted
              [sample_url] None None 10 10) "rev_001" 11 11 11 12 12).
  - reflexivity.
  - reflexivity.
  - discriminate.
Defined.
